(** * Presence and broadcast engine of the chat relay (server.js)

    A shallow embedding of [src/server.js]: the three module-level stores
    ([userState], [messageHistory], [lastActiveTimes]), the registration
    endpoint, the per-connection [message] and [close] listeners and the
    periodic reaper sweep, followed by the properties of the specification
    that concern them.

    Conventions of the embedding.
    - [Date.now()] is an input of every handler ([now : Z], milliseconds).
    - [wsServer.clients] is owned by the transport library; every handler
      receives the current set as a list of sockets with their [readyState].
    - [o.send(...)] is recorded in an output trace: one entry per socket
      and payload, in the order of the calls.  [JSON.stringify] of a store
      is the value of that store at the time of the call.
    - [JSON.parse(msg)] is library code: a frame carries the raw text
      together with the outcome of parsing it ([None] when it throws).
    - The listener does not validate what it decodes: the [user] of an
      event is whatever JSON value the client sent (an object, an array, a
      number, a string, a boolean) or is missing, and its [name] is any
      JSON value or is missing ([undefined]).  Every other property of a
      user is plain JSON data.
    - Logging has no effect on the stores and is left out, except where the
      evaluation of a log message can throw. *)

From stdpp Require Import gmap strings list fin_maps.

Local Open Scope Z_scope.
Local Open Scope string_scope.
Local Open Scope list_scope.

(** ** JavaScript data *)

(** What [JSON.parse] can produce.  Numbers are kept as integers: the
    handlers never compute with decoded numbers. *)
#[local] Set Warnings "-register-all".
Inductive json : Type :=
| JNull
| JBool (b : bool)
| JNum (n : Z)
| JStr (s : string)
| JArr (items : list json)
| JObj (fields : list (string * json)).

(** A socket of the transport library, identified by a number. *)
Definition channel : Type := nat.

(** [WebSocket.CONNECTING], [OPEN], [CLOSING], [CLOSED]. *)
Inductive ready_state : Type := CONNECTING | OPEN | CLOSING | CLOSED.

Record client : Type := { sock : channel; readyState : ready_state }.

(** The result of reading a property: nothing, JSON data, or a socket
    object of the server. *)
Inductive value : Type :=
| VUndefined
| VData (j : json)
| VSocket (c : channel).

(** The value of a [name] property, as far as the program looks at it:
    it compares names with [===] and uses them as property keys.
    - A number is given by the text that [ToString] yields for it: JSON
      has no [NaN], so two numbers are [===] exactly when their texts are
      equal ([-0] and [0] both give ["0"]).
    - An array or object is given by its identity, the address [addr] it
      was allocated at, and by the text that [ToString] yields for it.
      Every call of [JSON.parse] allocates its arrays and objects anew, so
      two of them from different messages never have the same address.
    With this, [===] on names is equality of these values. *)
Inductive jsname : Type :=
| NUndefined
| NNull
| NBool (b : bool)
| NNum (text : string)
| NStr (s : string)
| NObject (addr : nat) (text : string).

#[global] Instance jsname_eq_dec : EqDecision jsname.
Proof. solve_decision. Defined.

(** A [user] value that is not an object: a boolean, a number (by its
    text, as above) or a string.  ([null] and a missing [user] make the
    listener throw and are not users.) *)
Inductive primitive : Type :=
| PBool (b : bool)
| PNum (text : string)
| PStr (s : string).

(** An element of [userState].  It is an object -- the literal
    [{id, name}] of the registration endpoint, or an object or array
    decoded from a [join] event -- with its [name] and its remaining
    properties, all JSON data; or it is a primitive that a [join] event
    carried as its [user]. *)
Inductive user : Type :=
| UObject (n : jsname) (ps : list (string * json))
| UPrimitive (p : primitive).

(** [user.name]: reading a property of a primitive that its prototype
    does not have gives [undefined]. *)
Definition name (u : user) : jsname :=
  match u with
  | UObject n _ => n
  | UPrimitive _ => NUndefined
  end.

Definition props (u : user) : list (string * json) :=
  match u with
  | UObject _ ps => ps
  | UPrimitive _ => []
  end.

(** Whether a user converts to [true]: every object does; [false], [0]
    and the empty string do not. *)
Definition truthy (u : user) : bool :=
  match u with
  | UObject _ _ => true
  | UPrimitive (PBool b) => b
  | UPrimitive (PNum text) => negb (String.eqb text "0")
  | UPrimitive (PStr s) => negb (String.eqb s "")
  end.

Fixpoint assoc (k : string) (l : list (string * json)) : option json :=
  match l with
  | [] => None
  | (k', v) :: l' => if String.eqb k k' then Some v else assoc k l'
  end.

(** [user[k]] for a property other than [name]. *)
Definition get_prop (u : user) (k : string) : value :=
  match assoc k (props u) with
  | Some j => VData j
  | None => VUndefined
  end.

(** [v === ws], where [ws] is the socket object of channel [c]: objects
    are compared by identity. *)
Definition is_socket (c : channel) (v : value) : bool :=
  match v with
  | VSocket c' => Nat.eqb c' c
  | VUndefined | VData _ => false
  end.

(** [user.name === n]. *)
Definition has_name (n : jsname) (u : user) : bool :=
  bool_decide (name u = n).

(** The property key under which a name is stored in [lastActiveTimes]:
    [ToString] of the name. *)
Definition key_of (n : jsname) : string :=
  match n with
  | NUndefined => "undefined"
  | NNull => "null"
  | NBool true => "true"
  | NBool false => "false"
  | NNum text => text
  | NStr s => s
  | NObject _ text => text
  end.

(** ** Array operations *)

(** [Array.prototype.findIndex]; [None] stands for [-1]. *)
Fixpoint findIndex {A : Type} (p : A -> bool) (l : list A) : option nat :=
  match l with
  | [] => None
  | x :: l' => if p x then Some 0%nat else S <$> findIndex p l'
  end.

(** [Array.prototype.find]; [None] stands for [undefined]. *)
Definition find {A : Type} (p : A -> bool) (l : list A) : option A :=
  List.find p l.

(** [!isExist], where [isExist] is the result of [find] on [userState]:
    true when nothing was found, and also when the element found is
    falsy. *)
Definition not_exist (isExist : option user) : bool :=
  match isExist with
  | Some v => negb (truthy v)
  | None => true
  end.

(** [l.splice(i, 1)]. *)
Definition splice1 {A : Type} (i : nat) (l : list A) : list A := delete i l.

(** ** The stores *)

Record state : Type := {
  userState : list user;
  messageHistory : list json;
  lastActiveTimes : gmap string Z
}.

Definition initial : state :=
  {| userState := []; messageHistory := []; lastActiveTimes := ∅ |}.

(** [lastActiveTimes[k] = t].  [lastActiveTimes] is an ordinary object:
    assigning a number to the key [__proto__] runs the inherited setter,
    which ignores it; every other key becomes an own property. *)
Definition assign_time (k : string) (t : Z) (m : gmap string Z) : gmap string Z :=
  if String.eqb k "__proto__" then m else <[k := t]> m.

(** [delete lastActiveTimes[k]]. *)
Definition delete_time (k : string) (m : gmap string Z) : gmap string Z :=
  delete k m.

(** ** Outbound messages *)

Inductive payload : Type :=
| History (data : list json)         (* {type: "history", data} *)
| Presence (users : list user)       (* JSON.stringify(userState) *)
| Relay (raw : string) (binary : bool).  (* the inbound frame, unchanged *)

Definition sent : Type := (channel * payload)%type.

Definition is_open (c : client) : bool :=
  match readyState c with
  | OPEN => true
  | _ => false
  end.

(** [[...wsServer.clients].filter(o => o.readyState === WebSocket.OPEN)
      .forEach(o => o.send(p))], and [broadcastUserState]. *)
Definition broadcast (clients : list client) (p : payload) : list sent :=
  List.map (fun c => (sock c, p)) (List.filter is_open clients).

(** ** The registration endpoint, [app.post("/new-user")] *)

(** The parsed request body: its [name] property ([NUndefined] when it
    has none) and the other properties. *)
Record body : Type := { body_name : jsname; body_others : list (string * json) }.

(** [Object.keys(request.body).length]. *)
Definition keys_length (b : body) : nat :=
  (match body_name b with NUndefined => 0 | _ => 1 end + length (body_others b))%nat.

(** The JSON text sent back: [{status: "ok", user}] or
    [{status: "error", message}]. *)
Inductive result : Type :=
| ResultOk (u : user)
| ResultError (message : string).

(** [statusCode] is the HTTP status: 200 unless [response.status(n)] is
    called. *)
Record response : Type := { statusCode : Z; result_of : result }.

Definition already_taken : result := ResultError "This name is already taken!".

(** [uuid] is the value returned by [randomUUID()] for this request. *)
Definition new_user (uuid : string) (b : body) (st : state) : response * state :=
  if Nat.eqb (keys_length b) 0 then
    ({| statusCode := 400; result_of := already_taken |}, st)
  else
    if not_exist (find (has_name (body_name b)) (userState st)) then
      let newUser := UObject (body_name b) [("id", JStr uuid)] in
      ({| statusCode := 200; result_of := ResultOk newUser |},
       {| userState := userState st ++ [newUser];
          messageHistory := messageHistory st;
          lastActiveTimes := lastActiveTimes st |})
    else
      ({| statusCode := 409; result_of := already_taken |}, st).

(** ** The [connection] listener *)

(** A decoded event, by the value of its [type].  [DNull] is the JSON
    text [null], on which reading [type] throws; [DOther] is any value
    with another [type] or none.  The [user] of an event is [None] when
    the property is missing or [null], on which reading [name] throws;
    any other value is a [user], object or primitive. *)
Inductive decoded : Type :=
| DNull
| DPing (u : option user)
| DJoin (u : option user)
| DExit (u : option user)
| DSend (m : json)
| DClear
| DOther.

(** An inbound frame [(msg, isBinary)] with the outcome of
    [JSON.parse(msg)]. *)
Record frame : Type := { raw : string; isBinary : bool; parsed : option decoded }.

Inductive exn : Type := SyntaxError | TypeError.

(** How a listener ends: it returns, or an exception leaves it. *)
Inductive outcome : Type := Returned | Thrown (e : exn).

(** On connection the new socket is sent the history. *)
Definition on_connection (ws : channel) (st : state) : list sent :=
  [(ws, History (messageHistory st))].

Definition with_users (st : state) (us : list user) (m : gmap string Z) : state :=
  {| userState := us; messageHistory := messageHistory st; lastActiveTimes := m |}.

Definition with_history (st : state) (h : list json) : state :=
  {| userState := userState st; messageHistory := h; lastActiveTimes := lastActiveTimes st |}.

(** [ws.on("message", (msg, isBinary) => ...)].  The branches are the
    [if]s of the listener in order; a [join] falls through the remaining
    tests, none of which matches its [type]. *)
Definition on_message (now : Z) (clients : list client) (f : frame) (st : state)
  : outcome * state * list sent :=
  match parsed f with
  | None => (Thrown SyntaxError, st, [])
  | Some DNull => (Thrown TypeError, st, [])
  | Some (DPing None) => (Thrown TypeError, st, [])
  | Some (DPing (Some u)) =>
      (Returned,
       with_users st (userState st) (assign_time (key_of (name u)) now (lastActiveTimes st)),
       [])
  | Some (DJoin None) => (Thrown TypeError, st, [])
  | Some (DJoin (Some u)) =>
      let st' :=
        if not_exist (find (has_name (name u)) (userState st)) then
          with_users st (userState st ++ [u])
            (assign_time (key_of (name u)) now (lastActiveTimes st))
        else st in
      (Returned, st', broadcast clients (Presence (userState st')))
  | Some (DExit None) =>
      (* [receivedMSG.user.name] is first read by the callback of
         [findIndex] if there is an element, else by the log line that
         follows the broadcast. *)
      match userState st with
      | [] => (Thrown TypeError, st, broadcast clients (Presence []))
      | _ :: _ => (Thrown TypeError, st, [])
      end
  | Some (DExit (Some u)) =>
      let st' :=
        match findIndex (has_name (name u)) (userState st) with
        | Some idx =>
            with_users st (splice1 idx (userState st))
              (delete_time (key_of (name u)) (lastActiveTimes st))
        | None => st
        end in
      (Returned, st', broadcast clients (Presence (userState st')))
  | Some (DSend m) =>
      (Returned, with_history st (messageHistory st ++ [m]),
       broadcast clients (Relay (raw f) (isBinary f)))
  | Some DClear =>
      (Returned, with_history st [], broadcast clients (History []))
  | Some DOther => (Returned, st, [])
  end.

(** [ws.on("close", ...)] for the socket [ws]. *)
Definition on_close (ws : channel) (clients : list client) (st : state)
  : state * list sent :=
  match findIndex (fun u => is_socket ws (get_prop u "ws")) (userState st) with
  | Some userIndex =>
      match userState st !! userIndex with
      | Some disconnectedUser =>
          let st' :=
            with_users st (splice1 userIndex (userState st))
              (delete_time (key_of (name disconnectedUser)) (lastActiveTimes st)) in
          (st', broadcast clients (Presence (userState st')))
      | None => (st, [])
      end
  | None => (st, [])
  end.

(** ** The reaper, [setInterval(..., 5000)] *)

(** The test of the sweep:
    [lastActiveTimes[user.name] && currentTime - lastActiveTimes[user.name] > 5000].
    A missing entry reads [undefined], and a stored [0] is falsy as well.
    A key found only on the prototype reads a truthy non-number, for
    which the subtraction is [NaN] and the comparison false: as for a
    missing entry. *)
Definition stale (currentTime : Z) (times : gmap string Z) (u : user) : bool :=
  match times !! key_of (name u) with
  | Some t => negb (Z.eqb t 0) && Z.ltb 5000 (currentTime - t)
  | None => false
  end.

(** [userState.forEach((user, index) => ...)].  [forEach] reads the
    length once ([fuel] indices remain, [index] is the next), skips an
    index that is no longer in the array, and otherwise calls the
    callback on the element found there at that moment. *)
Fixpoint sweep_from (fuel index : nat) (currentTime : Z) (clients : list client)
    (st : state) (out : list sent) : state * list sent :=
  match fuel with
  | O => (st, out)
  | S fuel' =>
      match userState st !! index with
      | Some u =>
          if stale currentTime (lastActiveTimes st) u then
            let st' :=
              with_users st (splice1 index (userState st))
                (delete_time (key_of (name u)) (lastActiveTimes st)) in
            sweep_from fuel' (S index) currentTime clients st'
              (out ++ broadcast clients (Presence (userState st')))
          else sweep_from fuel' (S index) currentTime clients st out
      | None => sweep_from fuel' (S index) currentTime clients st out
      end
  end.

(** One run of the timer callback.  Every connection installs a timer of
    its own; all of them run this callback on the shared stores. *)
Definition sweep (currentTime : Z) (clients : list client) (st : state)
  : state * list sent :=
  sweep_from (length (userState st)) 0 currentTime clients st [].

(** Any number of runs, each with its own clock value and client set. *)
Fixpoint sweeps (ticks : list (Z * list client)) (st : state) : state :=
  match ticks with
  | [] => st
  | (t, clients) :: ticks' => sweeps ticks' (sweep t clients st).1
  end.

(** ** The process *)

(** The program installs no [try]/[catch] around its listeners and no
    [uncaughtException] handler: an exception that leaves a listener
    reaches the top level of the runtime, which ends the process, and
    with it every connection. *)
Record process : Type := { mem : state; running : bool }.

Definition boot : process := {| mem := initial; running := true |}.

(** Delivery of one inbound frame to the [message] listener. *)
Definition deliver (now : Z) (clients : list client) (f : frame) (p : process)
  : process * list sent :=
  if running p then
    match on_message now clients f (mem p) with
    | (Returned, st', out) => ({| mem := st'; running := true |}, out)
    | (Thrown _, st', out) => ({| mem := st'; running := false |}, out)
    end
  else (p, []).

(** A sequence of inbound frames, each with the clock and the client set
    at the time it is handled. *)
Definition arrival : Type := (Z * list client * frame)%type.

Fixpoint run (evs : list arrival) (p : process) : process :=
  match evs with
  | [] => p
  | (now, clients, f) :: evs' => run evs' (deliver now clients f p).1
  end.

(** The parts of a listener's result. *)
Definition outcome_of (r : outcome * state * list sent) : outcome := r.1.1.
Definition state_after (r : outcome * state * list sent) : state := r.1.2.
Definition trace_of (r : outcome * state * list sent) : list sent := r.2.

(** A frame with a given decoding. *)
Definition frame_of (r : string) (b : bool) (d : decoded) : frame :=
  {| raw := r; isBinary := b; parsed := Some d |}.

(** The names held by the Presence Table, in order. *)
Definition names (st : state) : list jsname := name <$> userState st.

(** ** The server as a transition system *)

(** What can happen to the stores: a registration request, a frame on
    some socket, the close of a socket, the firing of a timer. *)
Inductive input : Type :=
| Request (uuid : string) (b : body)
| Frame (now : Z) (f : frame)
| Closed (ws : channel)
| Tick (now : Z).

Definition step (clients : list client) (i : input) (st : state) : state :=
  match i with
  | Request uuid b => (new_user uuid b st).2
  | Frame now f => state_after (on_message now clients f st)
  | Closed ws => (on_close ws clients st).1
  | Tick now => (sweep now clients st).1
  end.


(** ** Truthy users *)

(** A frame whose [join], if it is one, carries a truthy user: an object
    or array, or a primitive other than [false], [0] and [""]. *)
Definition joins_truthy (f : frame) : bool :=
  match parsed f with
  | Some (DJoin (Some u)) => truthy u
  | _ => true
  end.


(** Every element of a table is truthy. *)
Definition all_truthy (l : list user) : Prop :=
  forall v, v ∈ l -> truthy v = true.

(** ** A small scenario

    Two clients on open sockets 1 and 2, a third socket already closed,
    and the frames they send. *)

Definition alice : user := UObject (NStr "alice") [("id", JStr "a-1")].
Definition bob : user := UObject (NStr "bob") [("id", JStr "b-2")].
Definition ghost : user := UObject (NStr "ghost") [].


Definition two_clients : list client :=
  [ {| sock := 1%nat; readyState := OPEN |};
    {| sock := 2%nat; readyState := OPEN |};
    {| sock := 3%nat; readyState := CLOSED |} ].

Definition join_frame (u : user) : frame := frame_of "join" false (DJoin (Some u)).
Definition exit_frame (u : user) : frame := frame_of "exit" false (DExit (Some u)).
Definition clear_frame : frame := frame_of "clear" false DClear.

(** A frame whose text is not JSON. *)
Definition garbage : frame := {| raw := "{oops"; isBinary := false; parsed := None |}.

(** Alice and Bob have joined at time 1000. *)
Definition both_joined : state :=
  mem (run [(1000, two_clients, join_frame alice);
            (1000, two_clients, join_frame bob)] boot).

(** Only Alice has joined, at time 1000. *)
Definition alice_joined : state :=
  mem (run [(1000, two_clients, join_frame alice)] boot).

(** Carol is known through the registration endpoint only. *)
Definition carol_body : body := {| body_name := NStr "carol"; body_others := [] |}.
Definition carol : user := UObject (NStr "carol") [("id", JStr "uuid-7")].
Definition carol_registered : state := (new_user "uuid-7" carol_body initial).2.

(** ** Reading a run *)

(** The decoded message that a [send] frame adds to the history. *)
Definition sent_message (a : arrival) : option json :=
  match parsed a.2 with
  | Some (DSend m) => Some m
  | _ => None
  end.

(** The number of sockets a broadcast goes to. *)
Definition open_count (clients : list client) : nat :=
  length (List.filter is_open clients).

(** * Properties *)

(** ** Array operations *)

Section Arrays.
Context {A : Type} (p : A -> bool).

Lemma findIndex_None (l : list A) :
  findIndex p l = None <-> Forall (fun x => p x = false) l.
Proof.
  induction l as [|x l IH]; simpl.
  - split; [constructor | done].
  - destruct (p x) eqn:Hx.
    + split; [done | inversion 1; congruence].
    + rewrite fmap_None, IH. split.
      * by constructor.
      * by inversion 1.
Qed.

Lemma findIndex_Some (l : list A) (i : nat) :
  findIndex p l = Some i ->
  exists l1 x l2,
    l = l1 ++ x :: l2 /\ length l1 = i /\ p x = true /\
    Forall (fun y => p y = false) l1.
Proof.
  revert i. induction l as [|x l IH]; simpl; intros i Hi; [done|].
  destruct (p x) eqn:Hx.
  - injection Hi as <-. by exists [], x, l.
  - apply fmap_Some in Hi as (j & Hj & ->).
    destruct (IH j Hj) as (l1 & y & l2 & -> & <- & Hy & Hl1).
    exists (x :: l1), y, l2. repeat split; auto.
Qed.

Lemma find_findIndex (l : list A) :
  find p l = None <-> findIndex p l = None.
Proof.
  unfold find. induction l as [|x l IH]; simpl; [done|].
  destruct (p x); [done|]. by rewrite fmap_None.
Qed.

Lemma find_None_Forall (l : list A) :
  find p l = None <-> Forall (fun x => p x = false) l.
Proof. by rewrite find_findIndex, findIndex_None. Qed.

Lemma splice1_middle (l1 l2 : list A) (x : A) :
  splice1 (length l1) (l1 ++ x :: l2) = l1 ++ l2.
Proof. apply delete_middle. Qed.

Lemma splice1_lookup (l : list A) (i : nat) (x : A) :
  l !! i = Some x ->
  exists l1 l2, l = l1 ++ x :: l2 /\ length l1 = i /\ splice1 i l = l1 ++ l2.
Proof.
  intros Hi. exists (take i l), (drop (S i) l).
  pose proof (lookup_lt_Some _ _ _ Hi) as Hlt.
  split; [by rewrite take_drop_middle|].
  split; [rewrite length_take; lia|]. apply delete_take_drop.
Qed.

End Arrays.

(** ** Names in the Presence Table *)

Lemma has_name_true (n : jsname) (u : user) :
  has_name n u = true <-> name u = n.
Proof. unfold has_name. apply bool_decide_eq_true. Qed.

Lemma has_name_false (n : jsname) (u : user) :
  has_name n u = false <-> name u <> n.
Proof. unfold has_name. apply bool_decide_eq_false. Qed.

Lemma absent_not_elem (n : jsname) (l : list user) :
  Forall (fun u => has_name n u = false) l <-> n ∉ name <$> l.
Proof.
  rewrite Forall_forall. split.
  - intros H (u & -> & Hu)%list_elem_of_fmap.
    apply H, has_name_false in Hu. done.
  - intros H u Hu. apply has_name_false. intros <-.
    apply H. by apply list_elem_of_fmap_2.
Qed.

Lemma NoDup_names_snoc (l : list user) (u : user) :
  NoDup (name <$> l) -> name u ∉ name <$> l -> NoDup (name <$> (l ++ [u])).
Proof.
  intros Hl Hu. rewrite fmap_app. apply NoDup_app. split; [done|].
  split; [|apply NoDup_singleton].
  intros n Hn Hn'. apply list_elem_of_singleton in Hn'. by subst.
Qed.

Lemma NoDup_names_splice (l : list user) (i : nat) :
  NoDup (name <$> l) -> NoDup (name <$> splice1 i l).
Proof.
  intros Hl. unfold splice1. rewrite list_fmap_delete.
  eapply sublist_NoDup; [exact Hl | apply sublist_delete].
Qed.

(** ** Finding a name *)

Lemma find_absent (n : jsname) (l : list user) :
  n ∉ name <$> l -> find (has_name n) l = None.
Proof. intros Hn. by apply find_None_Forall, absent_not_elem. Qed.

Lemma find_present (n : jsname) (l : list user) :
  n ∈ name <$> l -> exists v, find (has_name n) l = Some v /\ v ∈ l /\ name v = n.
Proof.
  intros Hn. destruct (find (has_name n) l) as [v|] eqn:Hf.
  - exists v. split; [done|]. apply List.find_some in Hf as [Hv Hv'].
    split; [by apply list_elem_of_In | by apply has_name_true].
  - by apply find_None_Forall, absent_not_elem in Hf.
Qed.

(** Among truthy elements, [!isExist] says that the name is absent. *)
Lemma not_exist_truthy (n : jsname) (l : list user) :
  (forall v, v ∈ l -> name v = n -> truthy v = true) ->
  not_exist (find (has_name n) l) = true <-> n ∉ name <$> l.
Proof.
  intros Hl. split.
  - intros Hne Hn. destruct (find_present n l Hn) as (v & Hf & Hv & Hnv).
    rewrite Hf in Hne; simpl in Hne. by rewrite (Hl v Hv Hnv) in Hne.
  - intros Hn. by rewrite find_absent.
Qed.

Lemma not_exist_present (n : jsname) (l : list user) :
  n ∈ name <$> l ->
  (forall v, v ∈ l -> name v = n -> truthy v = true) ->
  not_exist (find (has_name n) l) = false.
Proof.
  intros Hn Hl. destruct (not_exist (find (has_name n) l)) eqn:Hne; [|done].
  by apply not_exist_truthy in Hne.
Qed.

Lemma all_truthy_snoc (l : list user) (u : user) :
  all_truthy l -> truthy u = true -> all_truthy (l ++ [u]).
Proof.
  intros Hl Hu v [Hv|Hv%list_elem_of_singleton]%elem_of_app; [by apply Hl|by subst].
Qed.

Lemma all_truthy_sublist (l k : list user) :
  k `sublist_of` l -> all_truthy l -> all_truthy k.
Proof. intros Hk Hl v Hv. apply Hl. by eapply elem_of_sublist. Qed.

(** ** The message listener and the uniqueness of names *)

(** Frames whose joins carry truthy users keep the names unique and the
    table truthy. *)
Lemma on_message_keeps_unique (now : Z) (clients : list client) (f : frame) (st : state) :
  joins_truthy f = true ->
  NoDup (names st) -> all_truthy (userState st) ->
  NoDup (names (state_after (on_message now clients f st))) /\
  all_truthy (userState (state_after (on_message now clients f st))).
Proof.
  intros Hf Hst Htr. unfold joins_truthy in Hf.
  unfold on_message, state_after, names in *.
  destruct (parsed f) as [[|[u|]|[u|]|[u|]|m| |]|]; simpl; try done.
  - destruct (not_exist _) eqn:Hne; simpl; [|done].
    apply not_exist_truthy in Hne; [|by intros v Hv _; apply Htr].
    split; [by apply NoDup_names_snoc | by apply all_truthy_snoc].
  - destruct (findIndex _ _); simpl; [|done].
    split; [by apply NoDup_names_splice|].
    eapply all_truthy_sublist; [apply sublist_delete|done].
  - destruct (userState st) eqn:E; simpl; by rewrite E.
Qed.

Lemma deliver_keeps_unique (now : Z) (clients : list client) (f : frame) (p : process) :
  joins_truthy f = true ->
  NoDup (names (mem p)) -> all_truthy (userState (mem p)) ->
  NoDup (names (mem (deliver now clients f p).1)) /\
  all_truthy (userState (mem (deliver now clients f p).1)).
Proof.
  intros Hf Hp Htr. unfold deliver. destruct (running p); [|done].
  pose proof (on_message_keeps_unique now clients f (mem p) Hf Hp Htr) as H.
  unfold state_after in H.
  by destruct (on_message now clients f (mem p)) as [[[|e] st'] out].
Qed.

Lemma run_keeps_unique (evs : list arrival) (p : process) :
  Forall (fun a => joins_truthy a.2 = true) evs ->
  NoDup (names (mem p)) -> all_truthy (userState (mem p)) ->
  NoDup (names (mem (run evs p))) /\ all_truthy (userState (mem (run evs p))).
Proof.
  intros Hevs. revert p.
  induction Hevs as [|[[now clients] f] evs Hf _ IH]; intros p Hp Htr; simpl; [done|].
  destruct (deliver_keeps_unique now clients f p Hf Hp Htr) as [H1 H2]. by apply IH.
Qed.

Lemma initial_unique : NoDup (names initial) /\ all_truthy (userState initial).
Proof. split; [constructor|]. intros v Hv. by apply not_elem_of_nil in Hv. Qed.

Lemma run_names_unique (evs : list arrival) :
  Forall (fun a => joins_truthy a.2 = true) evs ->
  NoDup (names (mem (run evs boot))).
Proof.
  intros Hevs. destruct initial_unique as [H1 H2].
  by destruct (run_keeps_unique evs boot Hevs H1 H2).
Qed.


Lemma exit_userState (now : Z) (clients : list client) (r : string) (b : bool)
    (u : user) (st : state) :
  let st' := state_after (on_message now clients (frame_of r b (DExit (Some u))) st) in
  ((name u ∉ names st) /\ userState st' = userState st) \/
  (exists l1 v l2,
      userState st = l1 ++ v :: l2 /\ name v = name u /\
      (name u ∉ name <$> l1) /\ userState st' = l1 ++ l2).
Proof.
  unfold on_message, state_after, names; simpl.
  destruct (findIndex _ _) as [i|] eqn:Hf; simpl.
  - right. apply findIndex_Some in Hf as (l1 & v & l2 & Hl & <- & Hv & Hl1).
    exists l1, v, l2. rewrite Hl, splice1_middle.
    repeat split; [by apply has_name_true | by apply absent_not_elem].
  - left. split; [|done]. by apply absent_not_elem, findIndex_None.
Qed.

(** ** Broadcast fan-out *)

Lemma elem_of_broadcast (clients : list client) (p q : payload) (s : channel) :
  (s, q) ∈ broadcast clients p <->
  q = p /\ exists c, c ∈ clients /\ readyState c = OPEN /\ sock c = s.
Proof.
  unfold broadcast. rewrite list_elem_of_In, in_map_iff. split.
  - intros (c & [= <- <-] & Hc). apply filter_In in Hc as [Hc Ho].
    split; [done|]. exists c. rewrite list_elem_of_In.
    repeat split; [done|]. unfold is_open in Ho. by destruct (readyState c).
  - intros (-> & c & Hc & Ho & <-). exists c. split; [done|].
    apply filter_In. rewrite <- list_elem_of_In. split; [done|].
    unfold is_open. by rewrite Ho.
Qed.

Lemma length_broadcast (clients : list client) (p : payload) :
  length (broadcast clients p) = length (List.filter is_open clients).
Proof. unfold broadcast. apply length_map. Qed.

(** ** The close listener *)

Lemma get_prop_not_socket (ws : channel) (u : user) (k : string) :
  is_socket ws (get_prop u k) = false.
Proof. unfold get_prop. by destruct (assoc k (props u)). Qed.

Lemma on_close_finds_nothing (ws : channel) (l : list user) :
  findIndex (fun u => is_socket ws (get_prop u "ws")) l = None.
Proof.
  apply findIndex_None, Forall_forall. intros u _. apply get_prop_not_socket.
Qed.

Lemma on_close_noop (ws : channel) (clients : list client) (st : state) :
  on_close ws clients st = (st, []).
Proof. unfold on_close. by rewrite on_close_finds_nothing. Qed.

(** ** The reaper *)

Lemma stale_delete_time (now : Z) (k : string) (m : gmap string Z) (u : user) :
  stale now m u = false -> stale now (delete_time k m) u = false.
Proof.
  unfold stale, delete_time. intros H.
  destruct (decide (k = key_of (name u))) as [->|Hne].
  - by rewrite lookup_delete_eq.
  - by rewrite lookup_delete_ne.
Qed.

Lemma stale_no_entry (now : Z) (m : gmap string Z) (u : user) :
  m !! key_of (name u) = None -> stale now m u = false.
Proof. unfold stale. by intros ->. Qed.

Lemma elem_of_splice1 (l : list user) (i : nat) (u v : user) :
  u ∈ l -> l !! i = Some v -> u <> v -> u ∈ splice1 i l.
Proof.
  intros Hu Hi Hne.
  destruct (splice1_lookup l i v Hi) as (l1 & l2 & Hl & _ & ->).
  rewrite Hl in Hu. apply elem_of_app in Hu as [Hu|Hu].
  - apply elem_of_app. by left.
  - apply elem_of_cons in Hu as [Hu|Hu]; [done|].
    apply elem_of_app. by right.
Qed.

Section Sweep.
Variables (currentTime : Z) (clients : list client).

(** A user that the test of the sweep does not select is never removed,
    whatever the sweep does to the others. *)
Lemma sweep_from_keeps (fuel index : nat) (st : state) (out : list sent) (u : user) :
  u ∈ userState st ->
  stale currentTime (lastActiveTimes st) u = false ->
  let st' := (sweep_from fuel index currentTime clients st out).1 in
  u ∈ userState st' /\ stale currentTime (lastActiveTimes st') u = false.
Proof.
  revert index st out. induction fuel as [|fuel IH]; intros index st out Hu Hs; simpl.
  - done.
  - destruct (userState st !! index) as [v|] eqn:Hv; [|by apply IH].
    destruct (stale currentTime (lastActiveTimes st) v) eqn:Hsv; [|by apply IH].
    apply IH; simpl.
    + eapply elem_of_splice1; [done..|]. intros ->. congruence.
    + by apply stale_delete_time.
Qed.

(** The sweep only deletes from [lastActiveTimes]. *)
Lemma sweep_from_no_entry (fuel index : nat) (st : state) (out : list sent) (k : string) :
  lastActiveTimes st !! k = None ->
  lastActiveTimes (sweep_from fuel index currentTime clients st out).1 !! k = None.
Proof.
  revert index st out. induction fuel as [|fuel IH]; intros index st out Hk; simpl.
  - done.
  - destruct (userState st !! index) as [v|]; [|by apply IH].
    destruct (stale currentTime (lastActiveTimes st) v); [|by apply IH].
    apply IH; simpl. unfold delete_time. apply lookup_delete_None. by right.
Qed.

(** The sweep only removes from [userState]. *)
Lemma sweep_from_sublist (fuel index : nat) (st : state) (out : list sent) :
  userState (sweep_from fuel index currentTime clients st out).1 `sublist_of` userState st.
Proof.
  revert index st out. induction fuel as [|fuel IH]; intros index st out; simpl.
  - done.
  - destruct (userState st !! index) as [v|]; [|by apply IH].
    destruct (stale currentTime (lastActiveTimes st) v); [|by apply IH].
    etrans; [apply IH|]. simpl. apply sublist_delete.
Qed.

(** Every removal is followed by one broadcast to the open sockets. *)
Lemma sweep_from_trace_length (fuel index : nat) (st : state) (out : list sent) :
  let r := sweep_from fuel index currentTime clients st out in
  (length r.2 + length (userState r.1) * length (List.filter is_open clients)
   = length out + length (userState st) * length (List.filter is_open clients))%nat.
Proof.
  revert index st out. induction fuel as [|fuel IH]; intros index st out; simpl.
  - done.
  - destruct (userState st !! index) as [v|] eqn:Hv; [|by apply IH].
    destruct (stale currentTime (lastActiveTimes st) v); [|by apply IH].
    rewrite IH; simpl. rewrite length_app, length_broadcast.
    unfold splice1. rewrite length_delete by (by eexists).
    apply lookup_lt_Some in Hv.
    destruct (length (userState st)) as [|n]; simpl; lia.
Qed.

Lemma sweep_keeps (st : state) (u : user) :
  u ∈ userState st ->
  stale currentTime (lastActiveTimes st) u = false ->
  u ∈ userState (sweep currentTime clients st).1.
Proof. intros Hu Hs. by apply sweep_from_keeps. Qed.

End Sweep.

(** A user last seen within the threshold survives the sweep. *)
Lemma sweep_keeps_recent (now : Z) (clients : list client) (st : state) (u : user) (t : Z) :
  u ∈ userState st ->
  lastActiveTimes st !! key_of (name u) = Some t ->
  now - t <= 5000 ->
  u ∈ userState (sweep now clients st).1.
Proof.
  intros Hu Ht Hle. apply sweep_keeps; [done|].
  unfold stale. rewrite Ht. apply andb_false_iff. right. apply Z.ltb_ge. lia.
Qed.


Lemma sweeps_keep_unseen (ticks : list (Z * list client)) (st : state) (u : user) :
  u ∈ userState st ->
  lastActiveTimes st !! key_of (name u) = None ->
  u ∈ userState (sweeps ticks st).
Proof.
  revert st. induction ticks as [|[t clients] ticks IH]; intros st Hu Hk; simpl; [done|].
  apply IH.
  - apply sweep_keeps; [done|]. by apply stale_no_entry.
  - by apply sweep_from_no_entry.
Qed.

(** ** The last-seen map *)

Lemma assign_time_lookup (k : string) (t : Z) (m : gmap string Z) :
  k <> "__proto__" -> assign_time k t m !! k = Some t.
Proof.
  intros Hk. unfold assign_time.
  destruct (String.eqb_spec k "__proto__"); [done|]. apply lookup_insert_eq.
Qed.


(** ** The registration endpoint *)


Lemma new_user_taken (uuid : string) (b : body) (st : state) :
  keys_length b <> 0%nat -> (body_name b ∈ names st) ->
  (forall v, v ∈ userState st -> name v = body_name b -> truthy v = true) ->
  new_user uuid b st = ({| statusCode := 409; result_of := already_taken |}, st).
Proof.
  intros Hk Hn Htr. unfold new_user.
  destruct (Nat.eqb_spec (keys_length b) 0); [done|].
  by rewrite not_exist_present.
Qed.

Lemma new_user_fresh (uuid : string) (b : body) (st : state) :
  keys_length b <> 0%nat -> (body_name b ∉ names st) ->
  new_user uuid b st =
    (let newUser := UObject (body_name b) [("id", JStr uuid)] in
     ({| statusCode := 200; result_of := ResultOk newUser |},
      {| userState := userState st ++ [newUser];
         messageHistory := messageHistory st;
         lastActiveTimes := lastActiveTimes st |})).
Proof.
  intros Hk Hn. unfold new_user.
  destruct (Nat.eqb_spec (keys_length b) 0); [done|].
  by rewrite find_absent.
Qed.

Lemma new_user_keeps_unique (uuid : string) (b : body) (st : state) :
  NoDup (names st) -> all_truthy (userState st) ->
  NoDup (names (new_user uuid b st).2) /\ all_truthy (userState (new_user uuid b st).2).
Proof.
  intros Hst Htr. unfold new_user.
  destruct (Nat.eqb (keys_length b) 0); [done|].
  destruct (not_exist _) eqn:Hne; [|done]. unfold names; simpl.
  apply not_exist_truthy in Hne; [|by intros v Hv _; apply Htr].
  split; [by apply NoDup_names_snoc | by apply all_truthy_snoc].
Qed.

(** ** The uniqueness invariant over the whole server *)



(** * The claims of the specification *)




(** C2.  The sweep misses a stale user that directly follows a stale
    user it removes.  With Alice and Bob both last seen at 1000 and the
    sweep at 10000, both are past the threshold; the sweep removes Alice,
    broadcasts once, and leaves Bob in the table with his entry. *)
Theorem sweep_skips_next_stale_user :
  userState both_joined = [alice; bob] /\
  stale 10000 (lastActiveTimes both_joined) alice = true /\
  stale 10000 (lastActiveTimes both_joined) bob = true /\
  userState (sweep 10000 two_clients both_joined).1 = [bob] /\
  lastActiveTimes (sweep 10000 two_clients both_joined).1 !! "bob" = Some 1000 /\
  (sweep 10000 two_clients both_joined).2 = broadcast two_clients (Presence [bob]).
Proof. repeat split; vm_compute; reflexivity. Qed.

(** C3.  Closing the socket on which Alice joined removes nobody and
    sends nothing, whereas her [exit] event removes her and her entry and
    broadcasts the new table: no user object ever holds a socket, so the
    close listener finds no owner. *)
Theorem close_keeps_joined_user :
  (forall ws clients st, on_close ws clients st = (st, [])) /\
  on_close 1%nat two_clients both_joined = (both_joined, []) /\
  userState both_joined = [alice; bob] /\
  (let r := on_message 2000 two_clients (exit_frame alice) both_joined in
   userState (state_after r) = [bob] /\
   lastActiveTimes (state_after r) !! "alice" = None /\
   trace_of r = broadcast two_clients (Presence [bob])).
Proof.
  split; [apply on_close_noop|]. split; [apply on_close_noop|].
  repeat split; vm_compute; reflexivity.
Qed.

(** C4, as stated, fails: a frame that is not JSON ends the process.
    The listener is left by the [SyntaxError] of [JSON.parse], which
    nothing catches. *)
Lemma malformed_frame_ends_process :
  parsed garbage = None /\
  running boot = true /\
  running (deliver 1000 two_clients garbage boot).1 = false.
Proof. repeat split. Qed.

(** C4, amended.  For every frame that [JSON.parse] rejects, the listener
    stops at once with a [SyntaxError] that it does not catch; the
    Presence Table, the last-seen map and the History Log are unchanged
    and nothing is sent.  The exception leaves the listener, and the
    process that was running is no longer running. *)
Theorem malformed_frame_throws_uncaught :
  forall now clients r b st,
    let f := {| raw := r; isBinary := b; parsed := None |} in
    on_message now clients f st = (Thrown SyntaxError, st, []) /\
    deliver now clients f {| mem := st; running := true |}
      = ({| mem := st; running := false |}, []).
Proof. intros. split; reflexivity. Qed.




(** C6, as stated, fails: a second [join] of Alice at time 2000 leaves
    her last-seen time at 1000. *)
Lemma rejoin_keeps_old_timestamp :
  let r := on_message 2000 two_clients (join_frame alice) alice_joined in
  (name alice ∈ names alice_joined) /\
  lastActiveTimes alice_joined !! "alice" = Some 1000 /\
  lastActiveTimes (state_after r) !! "alice" = Some 1000 /\
  lastActiveTimes (state_after r) !! "alice" <> Some 2000.
Proof.
  repeat split; try (vm_compute; reflexivity).
  - vm_compute. apply list_elem_of_here.
  - vm_compute. discriminate.
Qed.

(** C6, amended.  For every [join] whose name is already in the Presence
    Table, carried there by truthy elements (objects, as the protocol has
    them), the whole state is unchanged -- the table, the History Log and
    the last-seen map, whose timestamp is not refreshed -- and the
    presence snapshot is broadcast to every open socket. *)
Theorem rejoin_changes_nothing :
  forall now clients r b u st,
    name u ∈ names st ->
    (forall v, v ∈ userState st -> name v = name u -> truthy v = true) ->
    on_message now clients (frame_of r b (DJoin (Some u))) st
      = (Returned, st, broadcast clients (Presence (userState st))).
Proof.
  intros now clients r b u st Hu Htr. unfold on_message; simpl.
  by rewrite not_exist_present.
Qed.

(** The amended C6 at a second join of Alice. *)
Lemma rejoin_changes_nothing_witness :
  on_message 2000 two_clients (frame_of "join" false (DJoin (Some alice))) alice_joined
    = (Returned, alice_joined, broadcast two_clients (Presence (userState alice_joined))).
Proof.
  apply (rejoin_changes_nothing 2000 two_clients "join" false alice alice_joined).
  - vm_compute. apply list_elem_of_here.
  - intros v Hv _. vm_compute in Hv.
    apply elem_of_cons in Hv as [->|Hv]; [reflexivity|].
    by apply not_elem_of_nil in Hv.
Defined.




(** C8.  For every [clear] event the listener returns normally; afterwards
    the History Log is empty, so that a socket connecting next is sent
    [{type: "history", data: []}]; the Presence Table and the last-seen
    map are unchanged; and what is sent is exactly one
    [{type: "history", data: []}] to each open socket: every open socket
    gets it, nothing else is sent, and nothing is sent to a socket that
    is not open. *)
Theorem clear_empties_history :
  forall now clients r b st,
    let res := on_message now clients (frame_of r b DClear) st in
    outcome_of res = Returned /\
    messageHistory (state_after res) = [] /\
    (forall ws, on_connection ws (state_after res) = [(ws, History [])]) /\
    userState (state_after res) = userState st /\
    lastActiveTimes (state_after res) = lastActiveTimes st /\
    trace_of res = List.map (fun c => (sock c, History [])) (List.filter is_open clients) /\
    (forall c, c ∈ clients -> readyState c = OPEN -> (sock c, History []) ∈ trace_of res) /\
    (forall s q, (s, q) ∈ trace_of res ->
       q = History [] /\ exists c, c ∈ clients /\ readyState c = OPEN /\ sock c = s).
Proof.
  intros now clients r b st res.
  do 6 (split; [reflexivity|]). split.
  - intros c Hc Ho. apply elem_of_broadcast. split; [done|]. by exists c.
  - intros s q Hq. by apply elem_of_broadcast in Hq.
Qed.

(** C9.  For every [exit] event whose user name is not in the Presence
    Table, the state (Presence Table, last-seen map, History Log) is
    unchanged, the listener returns normally, and the presence snapshot
    is nevertheless sent to every open socket. *)
Theorem exit_unknown_still_broadcasts :
  forall now clients r b u st,
    name u ∉ names st ->
    on_message now clients (frame_of r b (DExit (Some u))) st
      = (Returned, st, broadcast clients (Presence (userState st))).
Proof.
  intros now clients r b u st Hu. unfold on_message; simpl.
  apply absent_not_elem, findIndex_None in Hu. by rewrite Hu.
Qed.

(** C9 at an exit for the unknown name "ghost" while Alice and Bob are
    present. *)
Lemma exit_unknown_still_broadcasts_witness :
  on_message 2000 two_clients (frame_of "exit" false (DExit (Some ghost))) both_joined
    = (Returned, both_joined,
       [(1%nat, Presence [alice; bob]); (2%nat, Presence [alice; bob])]).
Proof.
  apply (exit_unknown_still_broadcasts 2000 two_clients "exit" false ghost both_joined).
  vm_compute. intros H.
  apply elem_of_cons in H as [H|H]; [discriminate|].
  apply elem_of_cons in H as [H|H]; [discriminate|].
  by apply not_elem_of_nil in H.
Defined.

(** C10.  A user of the Presence Table for whose name the last-seen map
    has no entry -- one created by the registration endpoint and never
    the subject of a [join] or [ping] -- is still in the table after any
    number of sweeps, whatever the clock shows at each of them. *)
Theorem unseen_user_never_evicted :
  forall (ticks : list (Z * list client)) (st : state) (u : user),
    u ∈ userState st ->
    lastActiveTimes st !! key_of (name u) = None ->
    u ∈ userState (sweeps ticks st).
Proof. exact sweeps_keep_unseen. Qed.

(** C10 at Carol, registered and never seen, through three sweeps. *)
Lemma unseen_user_never_evicted_witness :
  carol ∈ userState
    (sweeps [(5000, two_clients); (10000, two_clients); (1000000000000, [])]
       carol_registered).
Proof.
  apply (unseen_user_never_evicted _ carol_registered carol).
  - vm_compute. apply list_elem_of_here.
  - vm_compute. reflexivity.
Defined.

(** * Further properties of the code *)

(** ** The loop of the sweep *)

Section SweepLoop.
Variables (currentTime : Z) (clients : list client).

(** Indices whose users the test does not select are passed over. *)
Lemma sweep_from_skip (k fuel index : nat) (st : state) (out : list sent) :
  (forall j v, (index <= j < index + k)%nat -> userState st !! j = Some v ->
               stale currentTime (lastActiveTimes st) v = false) ->
  sweep_from (k + fuel) index currentTime clients st out
  = sweep_from fuel (index + k) currentTime clients st out.
Proof.
  revert index. induction k as [|k IH]; intros index H; simpl.
  - by rewrite Nat.add_0_r.
  - replace (index + S k)%nat with (S index + k)%nat by lia.
    destruct (userState st !! index) as [v|] eqn:Hv.
    + rewrite (H index v) by (done || lia).
      apply IH. intros j w Hj. apply H. lia.
    + apply IH. intros j w Hj. apply H. lia.
Qed.

Lemma sweep_from_history (fuel index : nat) (st : state) (out : list sent) :
  messageHistory (sweep_from fuel index currentTime clients st out).1 = messageHistory st.
Proof.
  revert index st out. induction fuel as [|fuel IH]; intros index st out; simpl; [done|].
  destruct (userState st !! index) as [v|]; [|by apply IH].
  destruct (stale currentTime (lastActiveTimes st) v); [|by apply IH].
  by rewrite IH.
Qed.

(** What the loop sends is added after what was sent before; if it sends
    anything, it ends with the snapshot of the table as the loop leaves
    it. *)
Lemma sweep_from_last_snapshot (fuel index : nat) (st : state) (out : list sent) :
  let r := sweep_from fuel index currentTime clients st out in
  (r = (st, out)) \/
  (exists pre, r.2 = out ++ pre ++ broadcast clients (Presence (userState r.1))).
Proof.
  revert index st out. induction fuel as [|fuel IH]; intros index st out; simpl.
  - by left.
  - destruct (userState st !! index) as [v|]; [|by apply IH].
    destruct (stale currentTime (lastActiveTimes st) v); [|by apply IH].
    right.
    destruct (IH (S index)
                (with_users st (splice1 index (userState st))
                   (delete_time (key_of (name v)) (lastActiveTimes st)))
                (out ++ broadcast clients (Presence (splice1 index (userState st)))))
      as [Heq|[pre Hpre]].
    + exists []. by rewrite Heq.
    + exists (broadcast clients (Presence (splice1 index (userState st))) ++ pre).
      rewrite Hpre. by rewrite <- !app_assoc.
Qed.

End SweepLoop.

Lemma sweep_without_stale (now : Z) (clients : list client) (st : state) :
  (forall u, u ∈ userState st -> stale now (lastActiveTimes st) u = false) ->
  sweep now clients st = (st, []).
Proof.
  intros H. unfold sweep.
  rewrite <- (Nat.add_0_r (length (userState st))).
  rewrite sweep_from_skip; [done|].
  intros j v _ Hv. apply H. by eapply list_elem_of_lookup_2.
Qed.



(** An entry that is within the threshold is not deleted by the loop. *)
Lemma sweep_from_keeps_entry (fuel index : nat) (now : Z) (clients : list client)
    (st : state) (out : list sent) (k : string) (t : Z) :
  lastActiveTimes st !! k = Some t ->
  now - t <= 5000 ->
  lastActiveTimes (sweep_from fuel index now clients st out).1 !! k = Some t.
Proof.
  revert index st out. induction fuel as [|fuel IH]; intros index st out Hk Ht; simpl.
  - done.
  - destruct (userState st !! index) as [v|]; [|by apply IH].
    destruct (stale now (lastActiveTimes st) v) eqn:Hv; [|by apply IH].
    apply IH; [|done]. simpl. unfold delete_time.
    rewrite lookup_delete_ne; [done|]. intros <-.
    unfold stale in Hv. rewrite Hk in Hv.
    apply andb_true_iff in Hv as [_ Hv]. apply Z.ltb_lt in Hv. lia.
Qed.




Lemma sweep_spares_recent_user_aux (now : Z) (clients : list client) (st : state)
    (u : user) (t : Z) :
  u ∈ userState st ->
  lastActiveTimes st !! key_of (name u) = Some t ->
  now - t <= 5000 ->
  (u ∈ userState (sweep now clients st).1) /\
  lastActiveTimes (sweep now clients st).1 !! key_of (name u) = Some t.
Proof.
  intros Hu Ht Hle. split.
  - by eapply sweep_keeps_recent.
  - by apply sweep_from_keeps_entry.
Qed.

(** ** The reaper: what a sweep does *)

(** X1.  A sweep that finds no user past the threshold changes none of the
    stores and sends nothing. *)
Theorem sweep_without_stale_is_silent :
  forall now clients st,
    (forall u, u ∈ userState st -> stale now (lastActiveTimes st) u = false) ->
    sweep now clients st = (st, []).
Proof. exact sweep_without_stale. Qed.

(** X1 at Alice and Bob, last seen at 1000, and a sweep at 6000: exactly
    5000 ms is not past the threshold. *)
Lemma sweep_without_stale_is_silent_witness :
  sweep 6000 two_clients both_joined = (both_joined, []).
Proof.
  apply (sweep_without_stale_is_silent 6000 two_clients both_joined).
  intros u Hu. vm_compute in Hu.
  apply elem_of_cons in Hu as [->|Hu]; [vm_compute; reflexivity|].
  apply elem_of_cons in Hu as [->|Hu]; [vm_compute; reflexivity|].
  by apply not_elem_of_nil in Hu.
Defined.




(** X3.  A sweep sends one snapshot to each open socket for each user it
    evicts and nothing else: the number of messages is the number of
    evictions times the number of open sockets.  It never adds a user and
    never touches the History Log.  If it evicts anyone, the last thing
    each open socket is sent is the table as the sweep leaves it. *)
Theorem sweep_broadcasts_per_eviction :
  forall now clients st,
    let r := sweep now clients st in
    userState r.1 `sublist_of` userState st /\
    length r.2
      = ((length (userState st) - length (userState r.1)) * open_count clients)%nat /\
    messageHistory r.1 = messageHistory st /\
    (r = (st, []) \/
     exists pre, r.2 = pre ++ broadcast clients (Presence (userState r.1))).
Proof.
  intros now clients st r.
  assert (Hsub : userState r.1 `sublist_of` userState st) by apply sweep_from_sublist.
  split; [done|]. split; [|split].
  - pose proof (sweep_from_trace_length now clients (length (userState st)) 0 st []) as Hc.
    simpl in Hc. fold (sweep now clients st) in Hc. fold r in Hc.
    fold (open_count clients) in Hc. apply sublist_length in Hsub. nia.
  - apply sweep_from_history.
  - destruct (sweep_from_last_snapshot now clients (length (userState st)) 0 st [])
      as [H|[pre H]]; [by left|right]. by exists pre.
Qed.



(** X5.  A user whose last-seen time is at most 5000 ms before the sweep
    is kept by it, and so is its last-seen entry. *)
Theorem sweep_spares_recent_user :
  forall now clients st u t,
    u ∈ userState st ->
    lastActiveTimes st !! key_of (name u) = Some t ->
    now - t <= 5000 ->
    (u ∈ userState (sweep now clients st).1) /\
    lastActiveTimes (sweep now clients st).1 !! key_of (name u) = Some t.
Proof.
  intros now clients st u t. apply sweep_spares_recent_user_aux.
Qed.

(** X5 at Bob, last seen at 1000, and a sweep at 6000. *)
Lemma sweep_spares_recent_user_witness :
  (bob ∈ userState (sweep 6000 two_clients both_joined).1) /\
  lastActiveTimes (sweep 6000 two_clients both_joined).1 !! key_of (name bob) = Some 1000.
Proof.
  apply (sweep_spares_recent_user 6000 two_clients both_joined bob 1000).
  - vm_compute. apply list_elem_of_further, list_elem_of_here.
  - vm_compute. reflexivity.
  - lia.
Defined.

(** X6.  A [ping] is a heartbeat: for a user of the table, a ping under
    its name records the current time, and a sweep that comes at most
    5000 ms later keeps the user and that entry. *)
Theorem ping_protects_from_next_sweep :
  forall now later clients clients' r b p u st,
    u ∈ userState st ->
    name p = name u ->
    key_of (name u) <> "__proto__" ->
    later - now <= 5000 ->
    let st1 := state_after (on_message now clients (frame_of r b (DPing (Some p))) st) in
    userState st1 = userState st /\
    lastActiveTimes st1 !! key_of (name u) = Some now /\
    (u ∈ userState (sweep later clients' st1).1) /\
    lastActiveTimes (sweep later clients' st1).1 !! key_of (name u) = Some now.
Proof.
  intros now later clients clients' r b p u st Hu Hp Hk Hle st1.
  assert (H1 : lastActiveTimes st1 !! key_of (name u) = Some now).
  { unfold st1, on_message, state_after; simpl. rewrite Hp. by apply assign_time_lookup. }
  split; [done|]. split; [done|].
  by apply sweep_spares_recent_user_aux.
Qed.

(** X6 at Bob: he pings at 6500, the sweep at 10000 keeps him. *)
Lemma ping_protects_from_next_sweep_witness :
  let st1 := state_after (on_message 6500 two_clients (frame_of "ping" false (DPing (Some bob)))
                            both_joined) in
  userState st1 = userState both_joined /\
  lastActiveTimes st1 !! key_of (name bob) = Some 6500 /\
  (bob ∈ userState (sweep 10000 two_clients st1).1) /\
  lastActiveTimes (sweep 10000 two_clients st1).1 !! key_of (name bob) = Some 6500.
Proof.
  apply (ping_protects_from_next_sweep 6500 10000 two_clients two_clients "ping" false
           bob bob both_joined).
  - vm_compute. apply list_elem_of_further, list_elem_of_here.
  - reflexivity.
  - vm_compute. discriminate.
  - lia.
Defined.

(** ** Joining and leaving *)



Lemma filter_other_names (n : jsname) (l : list user) :
  n ∉ name <$> l -> List.filter (fun v => negb (has_name n v)) l = l.
Proof.
  induction l as [|v l IH]; simpl; [done|]. intros Hn.
  apply not_elem_of_cons in Hn as [Hv Hl].
  assert (has_name n v = false) as -> by (apply has_name_false; congruence).
  simpl. by rewrite IH.
Qed.

(** X8.  In a table with unique names, an [exit] under a name of the
    table removes it altogether: afterwards the name is in neither the
    table nor the last-seen map, the other users are all there in their
    order, the other entries and the History Log are untouched, and the
    new table has been sent to every open socket. *)
Theorem exit_present_name_removes :
  forall now clients r b u st,
    NoDup (names st) ->
    name u ∈ names st ->
    let res := on_message now clients (frame_of r b (DExit (Some u))) st in
    outcome_of res = Returned /\
    (name u ∉ names (state_after res)) /\
    userState (state_after res)
      = List.filter (fun v => negb (has_name (name u) v)) (userState st) /\
    lastActiveTimes (state_after res) = delete (key_of (name u)) (lastActiveTimes st) /\
    messageHistory (state_after res) = messageHistory st /\
    trace_of res = broadcast clients (Presence (userState (state_after res))).
Proof.
  intros now clients r b u st Hnd Hu res.
  destruct (exit_userState now clients r b u st) as [[Habs _]|(l1 & v & l2 & Hl & Hv & Hl1 & Hst')];
    [done|].
  fold res in Hst'.
  assert (Hl2 : name u ∉ name <$> l2).
  { unfold names in Hnd. rewrite Hl, fmap_app, fmap_cons in Hnd.
    apply NoDup_app in Hnd as (_ & _ & [Hx _]%NoDup_cons). by rewrite <- Hv. }
  split; [done|]. split; [|split].
  - unfold names. rewrite Hst', fmap_app. by apply not_elem_of_app.
  - rewrite Hst', Hl, List.filter_app; simpl.
    assert (has_name (name u) v = true) as -> by (by apply has_name_true).
    simpl. by rewrite !filter_other_names.
  - unfold res, on_message, state_after, trace_of; simpl.
    destruct (findIndex _ _) eqn:Hf; [done|].
    apply findIndex_None, absent_not_elem in Hf. done.
Qed.

(** X8 at Alice leaving the table of Alice and Bob. *)
Lemma exit_present_name_removes_witness :
  let res := on_message 2000 two_clients (frame_of "exit" false (DExit (Some alice)))
               both_joined in
  outcome_of res = Returned /\
  (name alice ∉ names (state_after res)) /\
  userState (state_after res)
    = List.filter (fun v => negb (has_name (name alice) v)) (userState both_joined) /\
  lastActiveTimes (state_after res)
    = delete (key_of (name alice)) (lastActiveTimes both_joined) /\
  messageHistory (state_after res) = messageHistory both_joined /\
  trace_of res = broadcast two_clients (Presence (userState (state_after res))).
Proof.
  apply (exit_present_name_removes 2000 two_clients "exit" false alice both_joined).
  - apply run_names_unique. repeat constructor.
  - vm_compute. apply list_elem_of_here.
Defined.

Lemma findIndex_middle {A : Type} (p : A -> bool) (l1 l2 : list A) (x : A) :
  Forall (fun y => p y = false) l1 -> p x = true ->
  findIndex p (l1 ++ x :: l2) = Some (length l1).
Proof.
  intros Hl1 Hx. induction Hl1 as [|y l1 Hy _ IH]; simpl.
  - by rewrite Hx.
  - by rewrite Hy, IH.
Qed.

Lemma delete_assign_time (k : string) (t : Z) (m : gmap string Z) :
  m !! k = None -> delete_time k (assign_time k t m) = m.
Proof.
  intros Hk. unfold delete_time, assign_time.
  destruct (String.eqb k "__proto__").
  - by apply delete_id.
  - by apply delete_insert_id.
Qed.

(** X9.  Joining and leaving undo each other: when a name is in neither
    the table nor the last-seen map, a [join] under it followed by an
    [exit] under it gives back the three stores exactly as they were. *)
Theorem join_then_exit_restores :
  forall now later clients clients' r b r' b' u u' st,
    name u ∉ names st ->
    lastActiveTimes st !! key_of (name u) = None ->
    name u' = name u ->
    state_after (on_message later clients' (frame_of r' b' (DExit (Some u')))
      (state_after (on_message now clients (frame_of r b (DJoin (Some u))) st))) = st.
Proof.
  intros now later clients clients' r b r' b' u u' st Hu Hk Hn.
  apply absent_not_elem in Hu.
  unfold on_message, state_after; simpl.
  rewrite (proj2 (find_None_Forall _ _) Hu); simpl.
  rewrite Hn, findIndex_middle by (done || by apply has_name_true).
  unfold with_users; simpl.
  rewrite splice1_middle, app_nil_r, delete_assign_time by done.
  by destruct st.
Qed.

(** X9 at Alice joining the empty table and leaving it. *)
Lemma join_then_exit_restores_witness :
  state_after (on_message 2000 two_clients (frame_of "exit" false (DExit (Some alice)))
    (state_after (on_message 1000 two_clients (frame_of "join" false (DJoin (Some alice)))
       initial))) = initial.
Proof.
  apply (join_then_exit_restores 1000 2000 two_clients two_clients
           "join" false "exit" false alice alice initial).
  - unfold names; simpl. apply not_elem_of_nil.
  - reflexivity.
  - reflexivity.
Defined.

(** ** The server as a whole *)



Lemma join_known_name (now : Z) (clients : list client) (r : string) (b : bool)
    (u : user) (st : state) :
  name u ∈ names st ->
  (forall v, v ∈ userState st -> name v = name u -> truthy v = true) ->
  on_message now clients (frame_of r b (DJoin (Some u))) st
    = (Returned, st, broadcast clients (Presence (userState st))).
Proof.
  intros Hu Htr. unfold on_message; simpl.
  by rewrite not_exist_present.
Qed.

(** X11.  The usual way in -- registration, then a [join] under the
    registered name -- leaves no last-seen entry: the join changes no
    store and sends the table with the registered object (the one with
    the server's [id]; the object of the join is dropped), and as long as
    nothing pings that name no sequence of sweeps evicts the user. *)
Theorem registered_user_survives_join_and_sweeps :
  forall uuid b now clients r fb u ticks st,
    keys_length b <> 0%nat ->
    body_name b ∉ names st ->
    lastActiveTimes st !! key_of (body_name b) = None ->
    name u = body_name b ->
    let registered := UObject (body_name b) [("id", JStr uuid)] in
    let st1 := (new_user uuid b st).2 in
    let res := on_message now clients (frame_of r fb (DJoin (Some u))) st1 in
    state_after res = st1 /\
    trace_of res = broadcast clients (Presence (userState st ++ [registered])) /\
    (registered ∈ userState (sweeps ticks (state_after res))).
Proof.
  intros uuid b now clients r fb u ticks st Hk Hfree Hnone Hu registered st1 res.
  assert (Hst1 : userState st1 = userState st ++ [registered]
                 /\ lastActiveTimes st1 = lastActiveTimes st).
  { unfold st1. by rewrite new_user_fresh. }
  destruct Hst1 as [Hus Hts].
  assert (Hres : res = (Returned, st1, broadcast clients (Presence (userState st1)))).
  { apply join_known_name.
    - unfold names. rewrite Hus, Hu, fmap_app.
      apply elem_of_app. right. apply list_elem_of_here.
    - rewrite Hus, Hu. intros v [Hv|Hv%list_elem_of_singleton]%elem_of_app Hn;
        [|by subst].
      exfalso. apply Hfree. rewrite <- Hn. by apply list_elem_of_fmap_2. }
  rewrite Hres. unfold state_after, trace_of; simpl.
  split; [done|]. split; [by rewrite Hus|].
  apply sweeps_keep_unseen.
  - rewrite Hus. apply elem_of_app. right. apply list_elem_of_here.
  - by rewrite Hts.
Qed.

(** X11 at Carol: registered, joined with an object of her own, swept
    three times. *)
Lemma registered_user_survives_join_and_sweeps_witness :
  let res := on_message 1000 two_clients
               (frame_of "join" false
                  (DJoin (Some (UObject (NStr "carol") [("id", JStr "mine")]))))
               (new_user "uuid-7" carol_body initial).2 in
  state_after res = (new_user "uuid-7" carol_body initial).2 /\
  trace_of res = broadcast two_clients (Presence (userState initial ++ [carol])) /\
  (carol ∈ userState
     (sweeps [(5000, two_clients); (10000, two_clients); (1000000000000, [])]
        (state_after res))).
Proof.
  apply (registered_user_survives_join_and_sweeps "uuid-7" carol_body 1000 two_clients
           "join" false (UObject (NStr "carol") [("id", JStr "mine")])
           [(5000, two_clients); (10000, two_clients); (1000000000000, [])] initial).
  - vm_compute. discriminate.
  - unfold names; simpl. apply not_elem_of_nil.
  - reflexivity.
  - reflexivity.
Defined.

(** X12.  A name cannot be registered twice in a row.  For bodies with
    at least one property, when the elements of the table under the name
    are truthy, a second request under the same name is answered 409 and
    changes nothing, whatever the first request returned.  (Names are the
    same as [===] has it: an array or object of a later request is never
    the same name.) *)
Theorem second_registration_rejected :
  forall uuid uuid' b b' st,
    keys_length b <> 0%nat ->
    keys_length b' <> 0%nat ->
    body_name b' = body_name b ->
    (forall v, v ∈ userState st -> name v = body_name b -> truthy v = true) ->
    new_user uuid' b' (new_user uuid b st).2
      = ({| statusCode := 409; result_of := already_taken |}, (new_user uuid b st).2).
Proof.
  intros uuid uuid' b b' st Hk Hk' Hn Htr.
  destruct (decide (body_name b ∈ names st)) as [Hin|Hout].
  - rewrite (new_user_taken uuid b st) by done. simpl.
    apply new_user_taken; [done|by rewrite Hn|by rewrite Hn].
  - rewrite (new_user_fresh uuid b st) by done. simpl.
    apply new_user_taken; [done| |]; rewrite Hn; unfold names; simpl.
    + rewrite fmap_app. apply elem_of_app. right. apply list_elem_of_here.
    + intros v [Hv|Hv%list_elem_of_singleton]%elem_of_app Hnv; [by apply Htr|by subst].
Qed.

(** X12 at Carol registering twice. *)
Lemma second_registration_rejected_witness :
  new_user "uuid-8" carol_body (new_user "uuid-7" carol_body initial).2
    = ({| statusCode := 409; result_of := already_taken |},
       (new_user "uuid-7" carol_body initial).2).
Proof.
  apply (second_registration_rejected "uuid-7" "uuid-8" carol_body carol_body initial).
  - vm_compute. discriminate.
  - vm_compute. discriminate.
  - reflexivity.
  - intros v Hv _. by apply not_elem_of_nil in Hv.
Defined.

Lemma exit_name_gone (now : Z) (clients : list client) (r : string) (b : bool)
    (u : user) (st : state) :
  NoDup (names st) ->
  name u ∉ names (state_after (on_message now clients (frame_of r b (DExit (Some u))) st)).
Proof.
  intros Hnd.
  destruct (exit_userState now clients r b u st)
    as [[Habs Hst']|(l1 & v & l2 & Hl & Hv & Hl1 & Hst')];
    unfold names in *; rewrite Hst'; [done|].
  rewrite Hl, fmap_app, fmap_cons in Hnd.
  apply NoDup_app in Hnd as (_ & _ & [Hx _]%NoDup_cons).
  rewrite fmap_app. apply not_elem_of_app. split; [done|]. by rewrite <- Hv.
Qed.

(** X13.  An [exit] frees the name: in a table with unique names, a
    registration under the name that has just left is answered 200 and
    the new user is appended. *)
Theorem exit_frees_name_for_registration :
  forall now clients r fb u uuid b st,
    NoDup (names st) ->
    keys_length b <> 0%nat ->
    body_name b = name u ->
    let st1 := state_after (on_message now clients (frame_of r fb (DExit (Some u))) st) in
    let newUser := UObject (body_name b) [("id", JStr uuid)] in
    (new_user uuid b st1).1 = {| statusCode := 200; result_of := ResultOk newUser |} /\
    userState (new_user uuid b st1).2 = userState st1 ++ [newUser].
Proof.
  intros now clients r fb u uuid b st Hnd Hk Hn st1 newUser.
  rewrite new_user_fresh; [done|done|].
  rewrite Hn. by apply exit_name_gone.
Qed.

(** X13 at Carol, who registers, leaves, and registers again. *)
Lemma exit_frees_name_for_registration_witness :
  let st1 := state_after (on_message 1000 two_clients
                            (frame_of "exit" false (DExit (Some carol))) carol_registered) in
  let newUser := UObject (body_name carol_body) [("id", JStr "uuid-9")] in
  (new_user "uuid-9" carol_body st1).1
    = {| statusCode := 200; result_of := ResultOk newUser |} /\
  userState (new_user "uuid-9" carol_body st1).2 = userState st1 ++ [newUser].
Proof.
  apply (exit_frees_name_for_registration 1000 two_clients "exit" false carol
           "uuid-9" carol_body carol_registered).
  - apply (new_user_keeps_unique "uuid-7" carol_body initial); apply initial_unique.
  - vm_compute. discriminate.
  - reflexivity.
Defined.

(** ** Failures of the message listener *)



(** ** Fan-out *)

Lemma socks_of_broadcast (clients : list client) (p : payload) :
  (broadcast clients p).*1 = sock <$> List.filter is_open clients.
Proof.
  unfold broadcast. induction (List.filter is_open clients) as [|c l IH]; simpl; [done|].
  f_equal. exact IH.
Qed.

Lemma filter_open_sublist (clients : list client) :
  List.filter is_open clients `sublist_of` clients.
Proof.
  induction clients as [|c l IH]; simpl; [done|].
  destruct (is_open c); by constructor.
Qed.

(** X15.  A broadcast sends its payload, and nothing else, to the sockets
    whose [readyState] is [OPEN], and to no other socket; the number of
    messages is the number of open sockets, and when the sockets are
    distinct none receives it twice. *)
Theorem broadcast_reaches_open_sockets_once :
  forall clients p,
    (forall s q, (s, q) ∈ broadcast clients p <->
                 q = p /\ exists c, c ∈ clients /\ readyState c = OPEN /\ sock c = s) /\
    length (broadcast clients p) = open_count clients /\
    (NoDup (sock <$> clients) -> NoDup (broadcast clients p).*1).
Proof.
  intros clients p. split; [|split].
  - intros s q. apply elem_of_broadcast.
  - apply length_broadcast.
  - intros Hnd. rewrite socks_of_broadcast.
    eapply sublist_NoDup; [exact Hnd|]. apply fmap_sublist, filter_open_sublist.
Qed.

(** ** The History Log *)

Lemma run_of_sends (evs : list arrival) (p : process) :
  running p = true ->
  Forall (fun a => is_Some (sent_message a)) evs ->
  running (run evs p) = true /\
  messageHistory (mem (run evs p)) = messageHistory (mem p) ++ omap sent_message evs /\
  userState (mem (run evs p)) = userState (mem p) /\
  lastActiveTimes (mem (run evs p)) = lastActiveTimes (mem p).
Proof.
  intros Hp Hevs. revert p Hp.
  induction Hevs as [|[[now clients] f] evs [m Hm] _ IH]; intros p Hp; simpl.
  - by rewrite app_nil_r.
  - unfold sent_message in *; simpl in *. unfold deliver, on_message. rewrite Hp.
    destruct (parsed f) as [[| | | |m'| |]|]; try done. injection Hm as ->. simpl.
    destruct (IH {| mem := with_history (mem p) (messageHistory (mem p) ++ [m]);
                    running := true |} eq_refl) as (Hr & Hh & Hu & Ht).
    rewrite Hr, Hh, Hu, Ht; simpl. by rewrite <- app_assoc.
Qed.

(** X16.  The History Log is a faithful record of the [send] frames: after
    any sequence of them, handled by a running server, a socket that
    connects is sent the previous history followed by their decoded
    messages in the order of arrival; after a [clear] followed by such a
    sequence it is sent those messages only.  The sends change neither the
    table nor the last-seen map. *)
Theorem connection_replays_sends :
  forall now clients r b evs ws p,
    running p = true ->
    Forall (fun a => is_Some (sent_message a)) evs ->
    on_connection ws (mem (run evs p))
      = [(ws, History (messageHistory (mem p) ++ omap sent_message evs))] /\
    on_connection ws (mem (run ((now, clients, frame_of r b DClear) :: evs) p))
      = [(ws, History (omap sent_message evs))] /\
    userState (mem (run evs p)) = userState (mem p) /\
    lastActiveTimes (mem (run evs p)) = lastActiveTimes (mem p).
Proof.
  intros now clients r b evs ws p Hp Hevs.
  destruct (run_of_sends evs p Hp Hevs) as (_ & Hh & Hu & Ht).
  unfold on_connection. rewrite Hh. split; [done|]. split; [|done]. clear Hh Hu Ht.
  simpl. unfold deliver. rewrite Hp; simpl.
  destruct (run_of_sends evs {| mem := with_history (mem p) []; running := true |}
              eq_refl Hevs) as (_ & Hh & _ & _).
  by rewrite Hh.
Qed.

(** X16 at two sends after a clear. *)
Lemma connection_replays_sends_witness :
  on_connection 4%nat
    (mem (run [(1000, two_clients, frame_of "hi" false (DSend (JStr "hi")));
               (1001, two_clients, frame_of "yo" true (DSend (JStr "yo")))] boot))
    = [(4%nat, History (messageHistory (mem boot) ++ [JStr "hi"; JStr "yo"]))] /\
  on_connection 4%nat
    (mem (run ((900, two_clients, frame_of "clear" false DClear)
               :: [(1000, two_clients, frame_of "hi" false (DSend (JStr "hi")));
                   (1001, two_clients, frame_of "yo" true (DSend (JStr "yo")))]) boot))
    = [(4%nat, History [JStr "hi"; JStr "yo"])] /\
  userState
    (mem (run [(1000, two_clients, frame_of "hi" false (DSend (JStr "hi")));
               (1001, two_clients, frame_of "yo" true (DSend (JStr "yo")))] boot))
    = userState (mem boot) /\
  lastActiveTimes
    (mem (run [(1000, two_clients, frame_of "hi" false (DSend (JStr "hi")));
               (1001, two_clients, frame_of "yo" true (DSend (JStr "yo")))] boot))
    = lastActiveTimes (mem boot).
Proof.
  apply (connection_replays_sends 900 two_clients "clear" false
           [(1000, two_clients, frame_of "hi" false (DSend (JStr "hi")));
            (1001, two_clients, frame_of "yo" true (DSend (JStr "yo")))] 4%nat boot).
  - reflexivity.
  - repeat constructor; by eexists.
Defined.

(** ** Which event writes which store *)

Lemma sweep_from_times_same_or_shrunk (fuel index : nat) (now : Z) (clients : list client)
    (st : state) (out : list sent) (k : string) (t : Z) :
  lastActiveTimes (sweep_from fuel index now clients st out).1 !! k = Some t ->
  lastActiveTimes st !! k = Some t.
Proof.
  revert index st out. induction fuel as [|fuel IH]; intros index st out; simpl; [done|].
  destruct (userState st !! index) as [v|]; [|by apply IH].
  destruct (stale now (lastActiveTimes st) v); [|by apply IH].
  intros H. apply IH in H. simpl in H. unfold delete_time in H.
  by apply lookup_delete_Some in H as [_ H].
Qed.

(** X17.  Each store is written by few events only.  The History Log
    changes only by a [send] or a [clear]; the table only by a
    registration, a [join], an [exit] or a sweep; the last-seen map only
    by a [ping], a [join], an [exit] or a sweep.  So a close changes
    nothing, a registration neither history nor last-seen times, and a
    sweep never adds a last-seen entry or alters one. *)
Theorem stores_change_only_where_written :
  forall clients i st,
    (messageHistory (step clients i st) = messageHistory st \/
     exists now f, i = Frame now f /\
       (parsed f = Some DClear \/ exists m, parsed f = Some (DSend m))) /\
    (userState (step clients i st) = userState st \/
     (exists uuid b, i = Request uuid b) \/ (exists now, i = Tick now) \/
     exists now f u, i = Frame now f /\
       (parsed f = Some (DJoin (Some u)) \/ parsed f = Some (DExit (Some u)))) /\
    (lastActiveTimes (step clients i st) = lastActiveTimes st \/
     (exists now, i = Tick now) \/
     exists now f u, i = Frame now f /\
       (parsed f = Some (DPing (Some u)) \/ parsed f = Some (DJoin (Some u)) \/
        parsed f = Some (DExit (Some u)))) /\
    (forall now k t, i = Tick now ->
       lastActiveTimes (step clients i st) !! k = Some t ->
       lastActiveTimes st !! k = Some t).
Proof.
  intros clients i st. destruct i as [uuid b|now f|ws|now]; simpl.
  - split; [left|split; [right; left; by eexists _, _|split; [left|done]]];
      unfold new_user; destruct (Nat.eqb _ _); try done; by destruct (not_exist _).
  - unfold on_message, state_after.
    destruct (parsed f) as [[|[u|]|[u|]|[u|]|m| |]|] eqn:Hf; simpl;
      try (by repeat split; (done || auto)).
    + split; [by left|]. split; [by left|]. split; [|done].
      right; right. exists now, f, u. auto.
    + split; [by destruct (not_exist _); left|].
      split; [right; right; right; exists now, f, u; auto|].
      split; [|done]. right; right. exists now, f, u. auto.
    + split; [by destruct (findIndex _ _); left|].
      split; [right; right; right; exists now, f, u; auto|].
      split; [|done]. right; right. exists now, f, u. auto.
    + destruct (userState st) eqn:E; simpl; repeat split; (done || auto).
    + split; [right; exists now, f; split; [done|]; right; by exists m|].
      repeat split; (done || auto).
    + split; [right; exists now, f; auto|]. repeat split; (done || auto).
  - rewrite on_close_noop. simpl. repeat split; (done || auto).
  - split; [left; apply sweep_from_history|].
    split; [right; right; left; by exists now|].
    split; [right; left; by exists now|].
    intros now' k t _. apply sweep_from_times_same_or_shrunk.
Qed.
